(** * Test-descriptor generator for the opcode table (src/main.mjs)

    A shallow embedding of the script that walks the "unprefixed" opcode
    table and prints one test-table line per instruction, together with the
    properties of that script.

    Layout:
    - [JS]: the JavaScript primitives the script relies on (string
      conversion, [join], [toLowerCase], [replaceAll], [trim], division and
      number formatting);
    - [Gen]: the script itself, with its two per-entry accumulators
      ([testNames], [machineCode]) threaded through a small state monad and
      the [TypeError]s of dereferencing a missing field made explicit;
    - the theorems. *)

From Stdlib Require Import String Ascii List Bool Arith ZArith QArith Lia.
Import ListNotations.

Local Close Scope Q_scope.
Local Open Scope nat_scope.
Local Open Scope list_scope.
Local Open Scope string_scope.

(* ================================================================== *)
(** ** JavaScript primitives *)
(* ================================================================== *)

Module JS.

(** A value that is either a string or [undefined] (a field that the parsed
    JSON object does not have). *)
Definition jsstr := option string.

(** A boolean field or [undefined]. *)
Definition jsbool := option bool.

(** ToBoolean, as used by [if (x)] and [x ? a : b]: [undefined] is falsy. *)
Definition truthy (b : jsbool) : bool :=
  match b with
  | Some true => true
  | _ => false
  end.

(** ToString, as used by template literals and by [+=] with a string:
    [undefined] becomes the text "undefined". *)
Definition toText (v : jsstr) : string :=
  match v with
  | Some s => s
  | None => "undefined"
  end.

(** The conversion [Array.prototype.join] applies to each element:
    [undefined] becomes the empty string. *)
Definition elementText (v : jsstr) : string :=
  match v with
  | Some s => s
  | None => ""
  end.

(** [l.join(sep)] on an array of strings. *)
Fixpoint join (sep : string) (l : list string) : string :=
  match l with
  | [] => ""
  | [x] => x
  | x :: rest => x ++ sep ++ join sep rest
  end.

(** [l.join(sep)] on an array whose elements may be [undefined]. *)
Definition Array_join (sep : string) (l : list jsstr) : string :=
  join sep (map elementText l).

(** *** Characters

    Strings are modelled as [string], one [ascii] per code unit.  The
    table's vocabulary (mnemonics, operand names, opcode keys) is ASCII;
    [toLowerCase] and [trim] are modelled on that range, where they agree
    with ECMAScript; code units from 128 on are left alone. *)

Definition isUpper (c : ascii) : bool :=
  let n := nat_of_ascii c in (65 <=? n)%nat && (n <=? 90)%nat.

Definition lowerChar (c : ascii) : ascii :=
  if isUpper c then ascii_of_nat (nat_of_ascii c + 32) else c.

(** [s.toLowerCase()]. *)
Fixpoint toLowerCase (s : string) : string :=
  match s with
  | EmptyString => EmptyString
  | String c r => String (lowerChar c) (toLowerCase r)
  end.

(** [s.replaceAll(pat, rep)] for a one-character pattern [pat] and a
    replacement [rep] without [$]-patterns. *)
Fixpoint replaceAll (pat : ascii) (rep : string) (s : string) : string :=
  match s with
  | EmptyString => EmptyString
  | String c r =>
      if Ascii.eqb c pat then rep ++ replaceAll pat rep r
      else String c (replaceAll pat rep r)
  end.

(** White space and line terminators of the ASCII range: TAB, LF, VT, FF,
    CR and SPACE. *)
Definition isSpace (c : ascii) : bool :=
  let n := nat_of_ascii c in
  ((9 <=? n)%nat && (n <=? 13)%nat) || (n =? 32)%nat.

Fixpoint trimStart (s : string) : string :=
  match s with
  | EmptyString => EmptyString
  | String c r => if isSpace c then trimStart r else s
  end.

Fixpoint trimEnd (s : string) : string :=
  match s with
  | EmptyString => EmptyString
  | String c r =>
      match trimEnd r with
      | EmptyString => if isSpace c then EmptyString else String c EmptyString
      | r' => String c r'
      end
  end.

(** [s.trim()]. *)
Definition trim (s : string) : string := trimStart (trimEnd s).

(** *** Numbers

    The table's cycle counts are integers.  A quotient of an integer by 4 is
    exact in binary floating point, so the numbers the script computes are
    modelled as rationals, plus [NaN]. *)

Inductive number : Type :=
| NaN
| Num (q : Q).

(** [x / d] where [x] is an integer or [undefined] ([undefined / d] is
    [NaN]) and [d] a non-zero integer. *)
Definition divide (x : option Z) (d : Z) : number :=
  match x with
  | Some n => Num (inject_Z n / inject_Z d)%Q
  | None => NaN
  end.

Definition digitChar (d : nat) : ascii := ascii_of_nat (48 + d).

(** Decimal digits of a natural number, most significant first. *)
Fixpoint digitsFuel (fuel : nat) (n : nat) (acc : string) : string :=
  match fuel with
  | O => acc
  | S fuel' =>
      let acc' := String (digitChar (n mod 10)) acc in
      if (n <? 10)%nat then acc' else digitsFuel fuel' (n / 10) acc'
  end.

Definition natToString (n : nat) : string := digitsFuel (S n) n "".

(** The digits after the decimal point of [r/d] for [0 <= r < d], when the
    expansion terminates within [fuel] digits. *)
Fixpoint fraction (fuel : nat) (r d : nat) : string :=
  match fuel with
  | O => ""
  | S fuel' =>
      if (r =? 0)%nat then ""
      else String (digitChar ((r * 10) / d)) (fraction fuel' ((r * 10) mod d) d)
  end.

(** Number::toString (radix 10) on the values the script prints: the sign,
    the integer part and, if the value is not an integer, a point and the
    fractional digits.  For quotients by 4 below 2^49 in magnitude this is
    the text ECMAScript produces. *)
Definition Number_toString (x : number) : string :=
  match x with
  | NaN => "NaN"
  | Num q =>
      let n := Z.abs_nat (Qnum q) in
      let d := Pos.to_nat (Qden q) in
      let sign := if (Qnum q <? 0)%Z then "-" else "" in
      let frac := fraction 20 (n mod d) d in
      sign ++ natToString (n / d) ++
        (match frac with EmptyString => "" | _ => "." ++ frac end)
  end.

End JS.

Import JS.

(* ================================================================== *)
(** ** The generator *)
(* ================================================================== *)

Module Gen.

(** *** The opcode table

    The table comes from [JSON.parse]: any field of an entry or of an
    operand may be absent, in which case destructuring binds the variable
    to [undefined] ([None] here).  Fields that are present have the type
    the table gives them: an entry is an object and [operands] is an array
    of objects.  A [null] in the place of an entry or of an operand, which
    the destructuring of the callback's parameter rejects with a
    [TypeError], has no value in these types. *)

Record Operand : Type := mkOperand {
  name : jsstr;
  immediate : jsbool;
  increment : jsbool;
  decrement : jsbool
}.

Record Entry : Type := mkEntry {
  mnemonic : jsstr;
  operands : option (list Operand);
  cycles : option (list Z)
}.

(** [Object.entries(opcodes['unprefixed'])]: the (key, entry) pairs in the
    object's iteration order. *)
Definition Table : Type := list (string * Entry).

(** *** The two arrays a table entry accumulates into *)

Record Acc : Type := mkAcc {
  testNames : list jsstr;
  machineCode : list string
}.

Definition M (A : Type) : Type := Acc -> A * Acc.

Definition ret {A} (a : A) : M A := fun st => (a, st).

Definition bind {A B} (m : M A) (k : A -> M B) : M B :=
  fun st => let (a, st') := m st in k a st'.

Declare Scope gen_scope.
Delimit Scope gen_scope with gen.
Notation "x <- m ;; k" := (bind m (fun x => k))
  (at level 61, m at next level, right associativity) : gen_scope.
Notation "m ;; k" := (bind m (fun _ => k))
  (at level 61, right associativity) : gen_scope.
Local Open Scope gen_scope.

(** [testNames.push(v)] *)
Definition testNames_push (v : jsstr) : M unit :=
  fun st => (tt, mkAcc (testNames st ++ [v])%list (machineCode st)).

(** [machineCode.push(b)] *)
Definition machineCode_push (b : string) : M unit :=
  fun st => (tt, mkAcc (testNames st) (machineCode st ++ [b])%list).

(** [arr.map(f)] for a callback with effects on the accumulators. *)
Fixpoint Array_map {A B} (f : A -> M B) (l : list A) : M (list B) :=
  match l with
  | [] => ret []
  | x :: rest =>
      y <- f x ;;
      ys <- Array_map f rest ;;
      ret (y :: ys)
  end.

(** *** The operand callback *)

(** The [if (increment) .. else if (decrement) .. else ..] statement: it
    yields the new [value] and pushes one test-name part. *)
Definition suffix (o : Operand) : M jsstr :=
  let value := name o in
  if truthy (increment o) then
    testNames_push (Some (toText (name o) ++ "_increment")) ;;
    ret (Some (toText value ++ "+"))
  else if truthy (decrement o) then
    testNames_push (Some (toText (name o) ++ "_decrement")) ;;
    ret (Some (toText value ++ "-"))
  else
    testNames_push (name o) ;;
    ret value.

(** The [switch (name)] statement: cases compare with strict equality, so
    an [undefined] name selects none of them. *)
Definition placeholder (name : jsstr) (value : jsstr) : M jsstr :=
  match name with
  | None => ret value
  | Some n =>
      if (n =? "n16") || (n =? "a16") then
        machineCode_push "0x34" ;;
        machineCode_push "0x12" ;;
        ret (Some "0x1234")
      else if (n =? "n8") || (n =? "a8") then
        machineCode_push "0x12" ;;
        ret (Some "0x12")
      else if (n =? "e8") then
        machineCode_push "0x7B" ;;
        ret (Some "123")
      else ret value
  end.

(** The [return immediate ? value : `(${value})`] statement. *)
Definition wrap (immediate : jsbool) (value : jsstr) : jsstr :=
  if truthy immediate then value else Some ("(" ++ toText value ++ ")").

(** The callback given to [operands.map]. *)
Definition renderOperand (o : Operand) : M jsstr :=
  value <- suffix o ;;
  value <- placeholder (name o) value ;;
  ret (wrap (immediate o) value).

(** *** One table entry *)

Inductive error : Type :=
| TypeError (reading : string).

Inductive result (A : Type) : Type :=
| Ok (a : A)
| Throw (e : error).
Arguments Ok {A} a.
Arguments Throw {A} e.

(** The four values a table entry is turned into. *)
Record Descriptor : Type := mkDescriptor {
  testName : string;
  bytes : list string;
  assembly : string;
  machine_cycles : number
}.

Definition dquote : string := String (ascii_of_nat 34) EmptyString.

(** The template literal given to [console.log]. *)
Definition line (d : Descriptor) : string :=
  "            " ++ testName d ++ ": " ++ join ", " (bytes d) ++
  " => " ++ dquote ++ assembly d ++ dquote ++ ", " ++
  Number_toString (machine_cycles d) ++ ",".

(** The body of the outer callback up to the [console.log]:
    [operands.map] and [cycles[0]] throw a [TypeError] when [operands],
    respectively [cycles], is [undefined]. *)
Definition describe (opcode : string) (e : Entry) : result Descriptor :=
  match operands e with
  | None => Throw (TypeError "map")
  | Some ops =>
      let (tokens, st) :=
        Array_map renderOperand ops (mkAcc [mnemonic e] [opcode]) in
      let operandString := Array_join ", " tokens in
      let assembly := trim (toText (mnemonic e) ++ " " ++ operandString) in
      let testName :=
        replaceAll "$" "" (toLowerCase (Array_join "_" (testNames st))) in
      match cycles e with
      | None => Throw (TypeError "0")
      | Some cs =>
          let machine_cycles := divide (hd_error cs) 4 in
          Ok (mkDescriptor testName (machineCode st) assembly machine_cycles)
      end
  end.

(** *** The whole run

    [console] is the list of lines printed so far.  An exception thrown by
    the callback leaves [map], and the script, at once. *)
Fixpoint run (table : Table) (console : list string)
  : list string * option error :=
  match table with
  | [] => (console, None)
  | (opcode, e) :: rest =>
      match describe opcode e with
      | Throw err => (console, Some err)
      | Ok d => run rest (console ++ [line d])%list
      end
  end.

Definition main (table : Table) : list string * option error := run table [].

End Gen.

Import Gen.
Local Open Scope gen_scope.

(* ================================================================== *)
(** ** The generator as the specification words it *)
(* ================================================================== *)

(** The specification describes the operand loop as a pure fold: each
    operand contributes a name part, some bytes and a rendered token.  The
    definitions below follow its wording; [Array_map_renderOperand] relates
    them to the effectful callback. *)
Module Pure.

(** The "name-part contribution" of an operand. *)
Definition namePart (o : Operand) : jsstr :=
  if truthy (increment o) then Some (toText (name o) ++ "_increment")
  else if truthy (decrement o) then Some (toText (name o) ++ "_decrement")
  else name o.

(** The value after the increment/decrement step. *)
Definition suffixed (o : Operand) : jsstr :=
  if truthy (increment o) then Some (toText (name o) ++ "+")
  else if truthy (decrement o) then Some (toText (name o) ++ "-")
  else name o.

(** The rows of the placeholder table. *)
Inductive kind : Type := Wide | Narrow | Offset | Plain.

Definition classify (n : jsstr) : kind :=
  match n with
  | None => Plain
  | Some s =>
      if (s =? "n16") || (s =? "a16") then Wide
      else if (s =? "n8") || (s =? "a8") then Narrow
      else if (s =? "e8") then Offset
      else Plain
  end.

(** "bytes appended to machineCode" *)
Definition extraBytes (n : jsstr) : list string :=
  match classify n with
  | Wide => ["0x34"; "0x12"]
  | Narrow => ["0x12"]
  | Offset => ["0x7B"]
  | Plain => []
  end.

(** "value becomes" *)
Definition substituted (n : jsstr) (value : jsstr) : jsstr :=
  match classify n with
  | Wide => Some "0x1234"
  | Narrow => Some "0x12"
  | Offset => Some "123"
  | Plain => value
  end.

(** The "final rendered token". *)
Definition token (o : Operand) : jsstr :=
  wrap (immediate o) (substituted (name o) (suffixed o)).

(** Operands named [n16] or [a16]. *)
Definition isWide (o : Operand) : bool :=
  match name o with
  | Some s => (s =? "n16") || (s =? "a16")
  | None => false
  end.

(** Operands named [n8], [a8] or [e8]. *)
Definition isNarrow (o : Operand) : bool :=
  match name o with
  | Some s => (s =? "n8") || (s =? "a8") || (s =? "e8")
  | None => false
  end.

(** Operands whose name is one of the five placeholders. *)
Definition isPlaceholder (o : Operand) : bool := isWide o || isNarrow o.

Definition count (p : Operand -> bool) (ops : list Operand) : nat :=
  length (filter p ops).

End Pure.

Import Pure.

(** The value the callback has computed when it reaches its [return]. *)
Definition operandValue (o : Operand) : M jsstr :=
  value <- suffix o ;; placeholder (name o) value.

(** Names that select no case of the [switch]. *)
Definition plainName (n : jsstr) : Prop :=
  n <> Some "n16" /\ n <> Some "a16" /\ n <> Some "n8" /\ n <> Some "a8" /\
  n <> Some "e8".

(** Every character of [s] satisfies [p]. *)
Fixpoint allChars (p : ascii -> bool) (s : string) : bool :=
  match s with
  | EmptyString => true
  | String c r => p c && allChars p r
  end.

Definition isDollar (c : ascii) : bool := Ascii.eqb c "$".

(** The last character of a string, if any. *)
Fixpoint lastChar (s : string) : option ascii :=
  match s with
  | EmptyString => None
  | String c EmptyString => Some c
  | String _ r => lastChar r
  end.

(** The first character of a string, if any. *)
Definition firstChar (s : string) : option ascii :=
  match s with
  | EmptyString => None
  | String c _ => Some c
  end.


(** The entry [(k, e)] of a table is described as [d]. *)
Definition described (ke : string * Entry) (d : Descriptor) : Prop :=
  describe (fst ke) (snd ke) = Ok d.

(** The operand [o] with its [immediate] field replaced. *)
Definition withImmediate (f : Operand -> jsbool) (o : Operand) : Operand :=
  mkOperand (name o) (f o) (increment o) (decrement o).

(** The five names that select a case of the [switch]. *)
Definition placeholderNames : list jsstr :=
  [Some "n16"; Some "a16"; Some "n8"; Some "a8"; Some "e8"].

(** The three byte literals the [switch] pushes. *)
Definition literalByte (b : string) : Prop :=
  b = "0x34" \/ b = "0x12" \/ b = "0x7B".

(** An entry that has both of the arrays the script dereferences. *)
Definition complete (e : Entry) : bool :=
  match operands e, cycles e with
  | Some _, Some _ => true
  | _, _ => false
  end.

(** A cycle count small enough for [Number_toString] to give the text
    ECMAScript prints for its quarter. *)
Definition smallCount (c : Z) : Prop := (Z.abs c < 2 ^ 51)%Z.

(** An entry with its two arrays, the first cycle count being small. *)
Definition regular (e : Entry) : Prop :=
  operands e <> None /\
  exists cs, cycles e = Some cs /\
             forall c, hd_error cs = Some c -> smallCount c.

(** What the script does to the joined name parts. *)
Definition normalise (s : string) : string :=
  replaceAll "$" "" (toLowerCase s).

(** The text after the integer part of a non-negative count of quarters. *)
Definition quarterSuffix (c : Z) : string :=
  match (c mod 4)%Z with
  | 0%Z => ""
  | 1%Z => ".25"
  | 2%Z => ".5"
  | _ => ".75"
  end.

(* ================================================================== *)
(** ** Sample operands and entries *)
(* ================================================================== *)

Definition HL_indirect : Operand :=
  mkOperand (Some "HL") (Some false) (Some false) (Some false).
Definition HL_increment : Operand :=
  mkOperand (Some "HL") (Some true) (Some true) None.
Definition HL_both : Operand :=
  mkOperand (Some "HL") (Some true) (Some true) (Some true).
Definition A_register : Operand := mkOperand (Some "A") (Some true) None None.
Definition BC_register : Operand := mkOperand (Some "BC") (Some true) None None.
Definition n8_immediate : Operand := mkOperand (Some "n8") (Some true) None None.
Definition n8_increment : Operand :=
  mkOperand (Some "n8") (Some true) (Some true) None.
Definition n16_immediate : Operand := mkOperand (Some "n16") (Some true) None None.
Definition a16_indirect : Operand := mkOperand (Some "a16") (Some false) None None.

Definition NOP : Entry := mkEntry (Some "NOP") (Some []) (Some [4%Z]).
Definition LD_HL_n8 : Entry :=
  mkEntry (Some "LD") (Some [HL_indirect; n8_immediate]) (Some [8%Z]).
Definition LD_BC_n16 : Entry :=
  mkEntry (Some "LD") (Some [BC_register; n16_immediate]) (Some [12%Z]).
Definition LD_a16_A : Entry :=
  mkEntry (Some "LD") (Some [a16_indirect; A_register]) (Some [16%Z]).
Definition RST_38 : Entry :=
  mkEntry (Some "RST") (Some [mkOperand (Some "$38") (Some true) None None])
          (Some [16%Z]).
Definition quarter : Entry := mkEntry (Some "NOP") (Some []) (Some [1%Z]).

(** A mnemonic with a leading blank. *)
Definition NOP_padded : Entry := mkEntry (Some " NOP") (Some []) (Some [4%Z]).
(** Entries that lack a field, and one whose [cycles] is empty. *)
Definition no_mnemonic : Entry := mkEntry None (Some []) (Some [4%Z]).
Definition no_operands : Entry := mkEntry (Some "NOP") None (Some [4%Z]).
Definition no_cycles : Entry := mkEntry (Some "NOP") (Some []) None.
Definition empty_cycles : Entry := mkEntry (Some "NOP") (Some []) (Some []).

Definition start : Acc := mkAcc [Some "LD"] ["0x36"].

(* ================================================================== *)
(** ** Concrete runs *)
(* ================================================================== *)

Example join_three : join ", " ["a"; "b"; "c"] = "a, b, c".
Proof. reflexivity. Qed.

Example join_undefined : Array_join "_" [Some "LD"; None; Some "A"] = "LD__A".
Proof. reflexivity. Qed.

Example lower_example : toLowerCase "LD_HL_increment" = "ld_hl_increment".
Proof. reflexivity. Qed.

Example trim_example : trim "  NOP " = "NOP".
Proof. reflexivity. Qed.

Example show_quarter : Number_toString (divide (Some 1%Z) 4) = "0.25".
Proof. reflexivity. Qed.

Example show_two : Number_toString (divide (Some 8%Z) 4) = "2".
Proof. reflexivity. Qed.

Example show_neg : Number_toString (divide (Some (-6)%Z) 4) = "-1.5".
Proof. reflexivity. Qed.

Example show_twelve : Number_toString (divide (Some 50%Z) 4) = "12.5".
Proof. reflexivity. Qed.

Example show_nan : Number_toString (divide None 4) = "NaN".
Proof. reflexivity. Qed.


Example describe_LD_HL_n8 :
  describe "0x36" LD_HL_n8 =
  Ok (mkDescriptor "ld_hl_n8" ["0x36"; "0x12"] "LD (HL), 0x12" (Num (8 # 4))).
Proof. reflexivity. Qed.

Example main_LD_HL_n8 :
  main [("0x36", LD_HL_n8)] =
  (["            ld_hl_n8: 0x36, 0x12 => " ++ dquote ++ "LD (HL), 0x12" ++ dquote ++ ", 2,"], None).
Proof. reflexivity. Qed.

Example describe_LD_a16_A :
  describe "0xEA" LD_a16_A =
  Ok (mkDescriptor "ld_a16_a" ["0xEA"; "0x34"; "0x12"] "LD (0x1234), A"
        (Num (16 # 4))).
Proof. reflexivity. Qed.

Example describe_RST_38 :
  describe "0xFF" RST_38 =
  Ok (mkDescriptor "rst_38" ["0xFF"] "RST $38" (Num (16 # 4))).
Proof. reflexivity. Qed.

Example main_no_operands :
  main [("0x00", NOP); ("0x01", no_operands); ("0x36", LD_HL_n8)] =
  (["            nop: 0x00 => " ++ dquote ++ "NOP" ++ dquote ++ ", 1,"],
   Some (TypeError "map")).
Proof. reflexivity. Qed.

(* ================================================================== *)
(** ** The callback against the pure fold *)
(* ================================================================== *)

Section Callback.

Variable o : Operand.
Variable st : Acc.

Lemma suffix_run :
  suffix o st =
  (suffixed o, mkAcc (testNames st ++ [namePart o])%list (machineCode st)).
Proof.
  unfold suffix, suffixed, namePart, bind, ret, testNames_push.
  destruct (truthy (increment o)); [reflexivity|].
  destruct (truthy (decrement o)); reflexivity.
Qed.

Lemma placeholder_run (n value : jsstr) :
  placeholder n value st =
  (substituted n value,
   mkAcc (testNames st) (machineCode st ++ extraBytes n)%list).
Proof.
  unfold placeholder, substituted, extraBytes, classify.
  destruct n as [s|].
  - destruct ((s =? "n16") || (s =? "a16")).
    { cbn. now rewrite <- app_assoc. }
    destruct ((s =? "n8") || (s =? "a8")); [reflexivity|].
    destruct (s =? "e8"); [reflexivity|].
    cbn. rewrite app_nil_r. now destruct st.
  - cbn. rewrite app_nil_r. now destruct st.
Qed.

End Callback.

Lemma operandValue_run (o : Operand) (st : Acc) :
  operandValue o st =
  (substituted (name o) (suffixed o),
   mkAcc (testNames st ++ [namePart o])%list
         (machineCode st ++ extraBytes (name o))%list).
Proof.
  unfold operandValue, bind. rewrite suffix_run, placeholder_run. reflexivity.
Qed.

Lemma renderOperand_run (o : Operand) (st : Acc) :
  renderOperand o st =
  (token o,
   mkAcc (testNames st ++ [namePart o])%list
         (machineCode st ++ extraBytes (name o))%list).
Proof.
  unfold renderOperand, bind. rewrite suffix_run, placeholder_run. reflexivity.
Qed.

Lemma renderOperand_operandValue (o : Operand) (st : Acc) :
  renderOperand o st =
  (wrap (immediate o) (fst (operandValue o st)), snd (operandValue o st)).
Proof. rewrite renderOperand_run, operandValue_run. reflexivity. Qed.

(** The loop over the operands is the fold the specification describes. *)
Lemma Array_map_renderOperand (ops : list Operand) (st : Acc) :
  Array_map renderOperand ops st =
  (map token ops,
   mkAcc (testNames st ++ map namePart ops)%list
         (machineCode st ++ flat_map (fun o => extraBytes (name o)) ops)%list).
Proof.
  revert st. induction ops as [|o ops IH]; intros st.
  - cbn. rewrite !app_nil_r. now destruct st.
  - cbn [Array_map]. unfold bind at 1. rewrite renderOperand_run.
    unfold bind at 1. rewrite IH. cbn.
    now rewrite <- !app_assoc.
Qed.

Lemma classify_Wide (n : jsstr) :
  n = Some "n16" \/ n = Some "a16" -> classify n = Wide.
Proof. intros [-> | ->]; reflexivity. Qed.

Lemma classify_Narrow (n : jsstr) :
  n = Some "n8" \/ n = Some "a8" -> classify n = Narrow.
Proof. intros [-> | ->]; reflexivity. Qed.

Lemma classify_Plain (n : jsstr) : plainName n -> classify n = Plain.
Proof.
  intros (H1 & H2 & H3 & H4 & H5). destruct n as [s|]; [|reflexivity].
  unfold classify.
  destruct (String.eqb_spec s "n16"); [subst; now elim H1|].
  destruct (String.eqb_spec s "a16"); [subst; now elim H2|].
  destruct (String.eqb_spec s "n8"); [subst; now elim H3|].
  destruct (String.eqb_spec s "a8"); [subst; now elim H4|].
  destruct (String.eqb_spec s "e8"); [subst; now elim H5|].
  reflexivity.
Qed.

Lemma append_inj_l (s a b : string) : s ++ a = s ++ b -> a = b.
Proof.
  induction s as [|c s IH]; cbn; intros H; [exact H|].
  injection H as H. auto.
Qed.

(* ================================================================== *)
(** ** Operand rendering *)
(* ================================================================== *)

(** C1.  Placeholder substitution is keyed on the operand's name alone,
    whatever its immediate/increment/decrement flags: [n16]/[a16] append
    the bytes 0x34, 0x12 and make the value "0x1234"; [n8]/[a8] append 0x12
    and make the value "0x12"; [e8] appends 0x7B and makes the value "123";
    any other name appends nothing and the switch hands the value on as it
    received it, which is the name itself when no suffix was added. *)
Theorem C1_placeholder_substitution (o : Operand) (st : Acc) :
  let value := fst (operandValue o st) in
  let code := machineCode (snd (renderOperand o st)) in
  fst (renderOperand o st) = wrap (immediate o) value /\
  (name o = Some "n16" \/ name o = Some "a16" ->
     code = (machineCode st ++ ["0x34"; "0x12"])%list /\
     value = Some "0x1234") /\
  (name o = Some "n8" \/ name o = Some "a8" ->
     code = (machineCode st ++ ["0x12"])%list /\ value = Some "0x12") /\
  (name o = Some "e8" ->
     code = (machineCode st ++ ["0x7B"])%list /\ value = Some "123") /\
  (plainName (name o) ->
     code = machineCode st /\
     (forall v st', placeholder (name o) v st' = (v, st')) /\
     value = fst (suffix o st) /\
     (increment o <> Some true -> decrement o <> Some true ->
      value = name o)).
Proof.
  cbv zeta. rewrite renderOperand_run, operandValue_run, suffix_run.
  cbn [fst snd machineCode].
  unfold token, substituted, extraBytes. repeat apply conj.
  - reflexivity.
  - intros H. now rewrite (classify_Wide _ H).
  - intros H. now rewrite (classify_Narrow _ H).
  - intros H. now rewrite H.
  - intros H. rewrite (classify_Plain _ H). repeat apply conj.
    + apply app_nil_r.
    + intros v st'. rewrite placeholder_run. unfold substituted, extraBytes.
      rewrite (classify_Plain _ H), app_nil_r. now destruct st'.
    + reflexivity.
    + intros Hi Hd. unfold suffixed.
      destruct (increment o) as [[|]|]; try (now elim Hi);
        destruct (decrement o) as [[|]|]; try (now elim Hd); reflexivity.
Qed.

(** C3.  The token the callback returns is the computed value when
    [immediate] is true and the value between parentheses when it is false
    (or absent); wrapping leaves the accumulators as the substitution left
    them, so an indirect [a16] renders as "(0x1234)" and still appends
    0x34, 0x12. *)
Theorem C3_indirect_parentheses (o : Operand) (st : Acc) :
  let value := fst (operandValue o st) in
  let token := fst (renderOperand o st) in
  snd (renderOperand o st) = snd (operandValue o st) /\
  (immediate o = Some true -> token = value) /\
  (immediate o <> Some true -> token = Some ("(" ++ toText value ++ ")")) /\
  (forall i d st',
     let a16 := mkOperand (Some "a16") (Some false) i d in
     fst (renderOperand a16 st') = Some "(0x1234)" /\
     machineCode (snd (renderOperand a16 st')) =
       (machineCode st' ++ ["0x34"; "0x12"])%list).
Proof.
  cbv zeta. rewrite renderOperand_operandValue. cbn [fst snd].
  repeat apply conj.
  - reflexivity.
  - intros H. unfold wrap. now rewrite H.
  - intros H. unfold wrap.
    destruct (immediate o) as [[|]|]; [now elim H| |]; reflexivity.
  - intros i d st'. cbv zeta. now rewrite renderOperand_run.
Qed.

(** C4.  The increment/decrement statement: with [increment] true it
    appends "+" to the value and pushes "{name}_increment"; otherwise, with
    [decrement] true, it appends "-" and pushes "{name}_decrement";
    otherwise it pushes the name unmodified.  The part pushed is the one
    the operand leaves in [testNames]; an immediate [HL] with [increment]
    renders as "HL+" and contributes "hl_increment" to the test name. *)
Theorem C4_increment_decrement (o : Operand) (st : Acc) :
  let pushed part := mkAcc (testNames st ++ [part])%list (machineCode st) in
  (increment o = Some true ->
     suffix o st = (Some (toText (name o) ++ "+"),
                    pushed (Some (toText (name o) ++ "_increment")))) /\
  (increment o <> Some true -> decrement o = Some true ->
     suffix o st = (Some (toText (name o) ++ "-"),
                    pushed (Some (toText (name o) ++ "_decrement")))) /\
  (increment o <> Some true -> decrement o <> Some true ->
     suffix o st = (name o, pushed (name o))) /\
  testNames (snd (renderOperand o st)) = testNames (snd (suffix o st)) /\
  (forall d st',
     renderOperand (mkOperand (Some "HL") (Some true) (Some true) d) st' =
     (Some "HL+",
      mkAcc (testNames st' ++ [Some "HL_increment"])%list (machineCode st'))) /\
  (forall d opcode cs,
     let HLinc := mkOperand (Some "HL") (Some true) (Some true) d in
     exists desc,
       describe opcode (mkEntry (Some "LD") (Some [HLinc]) (Some cs)) = Ok desc /\
       testName desc = "ld_hl_increment" /\ testName desc <> "ld_hl").
Proof.
  cbv zeta. rewrite renderOperand_run, suffix_run. cbn [fst snd testNames].
  unfold suffixed, namePart. repeat apply conj.
  - intros H. now rewrite H.
  - intros Hi Hd. rewrite Hd.
    destruct (increment o) as [[|]|]; [now elim Hi| |]; reflexivity.
  - intros Hi Hd.
    destruct (increment o) as [[|]|]; try (now elim Hi);
      destruct (decrement o) as [[|]|]; try (now elim Hd); reflexivity.
  - reflexivity.
  - intros d st'. rewrite renderOperand_run. cbn. now rewrite app_nil_r.
  - intros d opcode cs. eexists. unfold describe. cbn [operands cycles mnemonic].
    rewrite Array_map_renderOperand. cbn. split; [reflexivity|].
    split; [reflexivity|discriminate].
Qed.

(** C10.  When [increment] and [decrement] are both true the increment
    branch is the one taken: the value receives "+", not "-", and the part
    pushed is "{name}_increment", not "{name}_decrement". *)
Theorem C10_increment_precedence (o : Operand) (st : Acc) :
  increment o = Some true -> decrement o = Some true ->
  suffix o st =
    (Some (toText (name o) ++ "+"),
     mkAcc (testNames st ++ [Some (toText (name o) ++ "_increment")%string])%list
           (machineCode st)) /\
  fst (suffix o st) <> Some (toText (name o) ++ "-") /\
  testNames (snd (renderOperand o st)) =
    (testNames st ++ [Some (toText (name o) ++ "_increment")%string])%list /\
  testNames (snd (renderOperand o st)) <>
    (testNames st ++ [Some (toText (name o) ++ "_decrement")%string])%list.
Proof.
  intros Hi Hd. rewrite renderOperand_run, suffix_run.
  unfold suffixed, namePart. rewrite Hi. cbn [truthy fst snd testNames].
  repeat apply conj.
  - reflexivity.
  - intros H. injection H as H. apply append_inj_l in H. discriminate.
  - reflexivity.
  - intros H. apply app_inv_head in H. injection H as H.
    apply append_inj_l in H. discriminate.
Qed.

(* ================================================================== *)
(** ** String primitives *)
(* ================================================================== *)

Lemma isUpper_lowerChar (c : ascii) : isUpper (lowerChar c) = false.
Proof. destruct c as [[] [] [] [] [] [] [] []]; reflexivity. Qed.

Lemma lowerChar_fixed (c : ascii) : isUpper c = false -> lowerChar c = c.
Proof. unfold lowerChar. now intros ->. Qed.

Lemma toLowerCase_no_upper (s : string) :
  allChars (fun c => negb (isUpper c)) (toLowerCase s) = true.
Proof.
  induction s as [|c s IH]; cbn; [reflexivity|].
  now rewrite isUpper_lowerChar, IH.
Qed.

Lemma toLowerCase_fixed (s : string) :
  allChars (fun c => negb (isUpper c)) s = true -> toLowerCase s = s.
Proof.
  induction s as [|c s IH]; cbn; [reflexivity|].
  intros H. apply andb_true_iff in H as [Hc Hs].
  apply negb_true_iff in Hc. now rewrite (lowerChar_fixed _ Hc), IH.
Qed.

Lemma replaceAll_empty_allChars (p : ascii -> bool) (pat : ascii) (s : string) :
  allChars p s = true -> allChars p (replaceAll pat "" s) = true.
Proof.
  induction s as [|c s IH]; cbn; [reflexivity|].
  intros H. apply andb_true_iff in H as [Hc Hs].
  destruct (Ascii.eqb c pat); cbn; [auto|]. now rewrite Hc, IH.
Qed.

Lemma replaceAll_empty_removes (pat : ascii) (s : string) :
  allChars (fun c => negb (Ascii.eqb c pat)) (replaceAll pat "" s) = true.
Proof.
  induction s as [|c s IH]; cbn; [reflexivity|].
  destruct (Ascii.eqb c pat) eqn:E; cbn; [exact IH|]. now rewrite E, IH.
Qed.







Lemma trimStart_fixed (s : string) (c : ascii) :
  firstChar s = Some c -> isSpace c = false -> trimStart s = s.
Proof.
  destruct s as [|a s]; cbn; [discriminate|].
  intros H Hc. injection H as ->. now rewrite Hc.
Qed.

Lemma trimEnd_fixed (s : string) (c : ascii) :
  lastChar s = Some c -> isSpace c = false -> trimEnd s = s.
Proof.
  intros H Hc. induction s as [|a s IH]; [discriminate|].
  cbn [trimEnd]. destruct s as [|b s].
  - cbn in H. injection H as ->. cbn. now rewrite Hc.
  - rewrite IH by exact H. reflexivity.
Qed.

Lemma lastChar_app (a b : string) :
  b <> "" -> lastChar (a ++ b) = lastChar b.
Proof.
  intros Hb. induction a as [|x a IH]; [reflexivity|].
  cbn [append lastChar]. destruct (a ++ b) as [|y r] eqn:E; [|exact IH].
  destruct a; cbn in E; [now elim Hb|discriminate].
Qed.

Lemma lastChar_nonempty (s : string) (c : ascii) :
  lastChar s = Some c -> s <> "".
Proof. intros H ->. discriminate. Qed.

Lemma lastChar_some (s : string) : s <> "" -> exists c, lastChar s = Some c.
Proof.
  induction s as [|a s IH]; [now intros H; elim H|]. intros _.
  destruct s as [|b s]; [now exists a|]. apply IH. discriminate.
Qed.


(** [join] is the standard library's [concat]. *)
Lemma join_concat (sep : string) (l : list string) :
  join sep l = String.concat sep l.
Proof.
  induction l as [|x [|y l] IH]; [reflexivity|reflexivity|].
  change (join sep (x :: y :: l)) with (x ++ sep ++ join sep (y :: l)).
  rewrite IH. reflexivity.
Qed.

(* ================================================================== *)
(** ** One table entry *)
(* ================================================================== *)

(** An entry whose [operands] and [cycles] are present is described, and
    its descriptor is the one of the pure fold. *)
Lemma describe_run (opcode : string) (e : Entry) ops cs :
  operands e = Some ops -> cycles e = Some cs ->
  describe opcode e =
  Ok (mkDescriptor
        (replaceAll "$" ""
           (toLowerCase (Array_join "_" (mnemonic e :: map namePart ops))))
        (opcode :: flat_map (fun o => extraBytes (name o)) ops)
        (trim (toText (mnemonic e) ++ " " ++ Array_join ", " (map token ops)))
        (divide (hd_error cs) 4)).
Proof.
  intros Ho Hc. unfold describe. rewrite Ho, Array_map_renderOperand, Hc.
  reflexivity.
Qed.

Lemma describe_Ok_cycles (opcode : string) (e : Entry) ops d :
  operands e = Some ops -> describe opcode e = Ok d ->
  exists cs, cycles e = Some cs.
Proof.
  intros Ho H. unfold describe in H.
  rewrite Ho, Array_map_renderOperand in H.
  destruct (cycles e) as [cs|]; [now exists cs|discriminate].
Qed.

(** Replace the descriptor of a described entry by the one [describe_run]
    computes. *)
Ltac descriptor_of Ho Hd :=
  let cs := fresh "cs" in
  let Hc := fresh "Hc" in
  destruct (describe_Ok_cycles _ _ _ _ Ho Hd) as [cs Hc];
  rewrite (describe_run _ _ _ cs Ho Hc) in Hd;
  injection Hd as <-.

Lemma isWide_classify (o : Operand) :
  isWide o = match classify (name o) with Wide => true | _ => false end.
Proof.
  unfold isWide, classify. destruct (name o) as [s|]; [|reflexivity].
  destruct ((s =? "n16") || (s =? "a16")); [reflexivity|].
  destruct ((s =? "n8") || (s =? "a8")); [reflexivity|].
  now destruct (s =? "e8").
Qed.

Lemma isNarrow_classify (o : Operand) :
  isNarrow o =
  match classify (name o) with Narrow | Offset => true | _ => false end.
Proof.
  unfold isNarrow, classify. destruct (name o) as [s|]; [|reflexivity].
  destruct (String.eqb_spec s "n16"); [subst; reflexivity|].
  destruct (String.eqb_spec s "a16"); [subst; reflexivity|].
  cbn [orb].
  destruct ((s =? "n8") || (s =? "a8")); [reflexivity|].
  cbn [orb]. now destruct (s =? "e8").
Qed.

(** The bytes one operand adds: two for a wide placeholder, one for a
    narrow one, none otherwise. *)
Lemma extraBytes_length (o : Operand) :
  length (extraBytes (name o)) =
  if isWide o then 2 else if isNarrow o then 1 else 0.
Proof.
  rewrite isWide_classify, isNarrow_classify. unfold extraBytes.
  now destruct (classify (name o)).
Qed.

Lemma extraBytes_total (ops : list Operand) :
  length (flat_map (fun o => extraBytes (name o)) ops) =
  2 * count isWide ops + count isNarrow ops.
Proof.
  unfold count. induction ops as [|o ops IH]; [reflexivity|].
  cbn [flat_map filter]. rewrite length_app, IH, extraBytes_length.
  rewrite isNarrow_classify, isWide_classify.
  destruct (classify (name o)); cbn [length]; lia.
Qed.

Lemma count_isPlaceholder (ops : list Operand) :
  count isPlaceholder ops = count isWide ops + count isNarrow ops.
Proof.
  unfold count, isPlaceholder. induction ops as [|o ops IH]; [reflexivity|].
  cbn [filter]. rewrite isNarrow_classify, isWide_classify.
  destruct (classify (name o)); cbn [orb length]; lia.
Qed.

(** C2 (as amended).  The byte array of an entry holds the opcode key and
    then two bytes for every operand named [n16] or [a16] and one byte for
    every operand named [n8], [a8] or [e8]; its length exceeds 1 by the
    number of placeholder operands exactly when none of them is wide. *)
Theorem C2_machineCode_length (opcode : string) (e : Entry) ops d :
  operands e = Some ops -> describe opcode e = Ok d ->
  length (bytes d) = 1 + 2 * count isWide ops + count isNarrow ops /\
  (forall o st,
     length (machineCode (snd (renderOperand o st))) =
     length (machineCode st) +
     (if isWide o then 2 else if isNarrow o then 1 else 0)) /\
  (length (bytes d) - 1 = count isPlaceholder ops <-> count isWide ops = 0).
Proof.
  intros Ho Hd. descriptor_of Ho Hd.
  cbn [bytes length]. rewrite extraBytes_total, count_isPlaceholder.
  repeat apply conj.
  - lia.
  - intros o st. rewrite renderOperand_run. cbn [snd machineCode].
    now rewrite length_app, extraBytes_length.
  - lia.
  - lia.
Qed.

(** C5.  The test name is the name parts joined by "_", lower-cased, with
    every "$" removed; it holds no "$" and no upper-case letter, and
    lower-casing it again changes nothing. *)
Theorem C5_testName (opcode : string) (e : Entry) ops d :
  operands e = Some ops -> describe opcode e = Ok d ->
  let parts :=
    testNames (snd (Array_map renderOperand ops (mkAcc [mnemonic e] [opcode]))) in
  parts = mnemonic e :: map namePart ops /\
  testName d = replaceAll "$" "" (toLowerCase (Array_join "_" parts)) /\
  allChars (fun c => negb (isDollar c)) (testName d) = true /\
  allChars (fun c => negb (isUpper c)) (testName d) = true /\
  toLowerCase (testName d) = testName d.
Proof.
  intros Ho Hd. descriptor_of Ho Hd.
  cbv zeta. rewrite Array_map_renderOperand. cbn [snd testNames testName app].
  assert (U : allChars (fun c => negb (isUpper c))
                (replaceAll "$" ""
                   (toLowerCase (Array_join "_" (mnemonic e :: map namePart ops))))
              = true).
  { apply replaceAll_empty_allChars, toLowerCase_no_upper. }
  repeat apply conj.
  - reflexivity.
  - reflexivity.
  - apply replaceAll_empty_removes.
  - exact U.
  - apply toLowerCase_fixed, U.
Qed.

(** C6.  The cycle count of a descriptor is the first element of [cycles]
    divided by 4 as a rational, not as an integer: [1] gives 0.25, which
    integer division would turn into 0, and is printed as "0.25"; [8]
    gives 2. *)
Theorem C6_machine_cycles (opcode : string) (e : Entry) ops cs :
  operands e = Some ops -> cycles e = Some cs ->
  exists d,
    describe opcode e = Ok d /\
    machine_cycles d = divide (hd_error cs) 4 /\
    (forall c rest, cs = c :: rest ->
       machine_cycles d = Num (inject_Z c / inject_Z 4)%Q) /\
    (cs = [1%Z] ->
       exists q, machine_cycles d = Num q /\ (q == 1 # 4)%Q /\
                 ~ (q == inject_Z (1 / 4))%Q /\
                 Number_toString (machine_cycles d) = "0.25") /\
    (cs = [8%Z] ->
       exists q, machine_cycles d = Num q /\ (q == 2)%Q /\
                 Number_toString (machine_cycles d) = "2").
Proof.
  intros Ho Hc. eexists. split; [exact (describe_run opcode e ops cs Ho Hc)|].
  cbn [machine_cycles]. repeat apply conj.
  - reflexivity.
  - intros c rest ->. reflexivity.
  - intros ->. eexists. repeat apply conj; [reflexivity|reflexivity| |reflexivity].
    intros H. discriminate H.
  - intros ->. eexists. repeat apply conj; reflexivity.
Qed.


(* ================================================================== *)
(** ** The whole run *)
(* ================================================================== *)

(** Entries that are described each add their line, in order. *)
Lemma run_described (table : Table) ds :
  Forall2 described table ds ->
  forall rest console,
    run (table ++ rest)%list console = run rest (console ++ map line ds)%list.
Proof.
  induction 1 as [|[k e] d table ds Hd _ IH]; intros rest console.
  - cbn. now rewrite app_nil_r.
  - cbn [app run map]. unfold described in Hd. cbn [fst snd] in Hd.
    rewrite Hd, IH, <- app_assoc. reflexivity.
Qed.

(** An entry with both arrays is described. *)
Lemma describe_total (opcode : string) (e : Entry) :
  operands e <> None -> cycles e <> None ->
  exists d, describe opcode e = Ok d /\ hd_error (bytes d) = Some opcode.
Proof.
  intros Ho Hc.
  destruct (operands e) as [ops|] eqn:Eo; [|now elim Ho].
  destruct (cycles e) as [cs|] eqn:Ec; [|now elim Hc].
  eexists. split; [exact (describe_run opcode e ops cs Eo Ec)|reflexivity].
Qed.

(** An entry that lacks one of the arrays throws. *)
Lemma describe_throws (opcode : string) (e : Entry) :
  operands e = None \/ cycles e = None ->
  exists reading, describe opcode e = Throw (TypeError reading).
Proof.
  intros H. unfold describe.
  destruct (operands e) as [ops|]; [|now exists "map"].
  destruct H as [H|H]; [discriminate|].
  rewrite Array_map_renderOperand, H. now exists "0".
Qed.

(** C8.  When every entry of the table carries its [operands] and its
    [cycles] (with a small first count), the script prints exactly one
    line per entry, in the table's order and nothing else; each line is 12
    blanks, the test name, ": ", the bytes separated by ", " and starting
    with the entry's own key, " => ", the assembly text between double
    quotes, ", ", the cycle count and a final comma. *)
Theorem C8_output_lines (table : Table) :
  (forall k e, In (k, e) table -> regular e) ->
  exists ds,
    Forall2 (fun ke d => described ke d /\ hd_error (bytes d) = Some (fst ke))
            table ds /\
    main table =
      (map (fun d =>
              "            " ++ testName d ++ ": " ++
              String.concat ", " (bytes d) ++ " => " ++
              String "034" "" ++ assembly d ++ String "034" "" ++ ", " ++
              Number_toString (machine_cycles d) ++ ",") ds,
       None) /\
    String.length "            " = 12.
Proof.
  intros H.
  assert (E : exists ds,
             Forall2 (fun ke d => described ke d /\
                                  hd_error (bytes d) = Some (fst ke)) table ds).
  { induction table as [|[k e] table IH].
    - exists []. constructor.
    - destruct IH as [ds IH].
      { intros k' e' Hin. apply (H k' e'). now right. }
      destruct (H k e (or_introl eq_refl)) as (Ho & cs & Hc & _).
      destruct (describe_total k e Ho) as (d & Hd & Hk).
      { rewrite Hc. discriminate. }
      exists (d :: ds). constructor; [split; assumption|exact IH]. }
  destruct E as [ds E]. exists ds. split; [exact E|].
  split; [|reflexivity].
  unfold main. rewrite <- (app_nil_r table).
  rewrite (run_described table ds).
  - cbn [app run]. apply (f_equal (fun l => (l, @None error))).
    apply map_ext. intros d. unfold line. now rewrite join_concat.
  - clear H. induction E as [|ke d table ds [Hd _] _ IH]; constructor; assumption.
Qed.

(** C9 (as amended).  An entry without [operands] or without [cycles]
    throws a [TypeError] that ends the run: the lines of the entries before
    it have been printed, none is printed for it or for the entries after
    it.  An entry that has both arrays never throws, whichever other field
    it lacks; with an empty [cycles] its cycle count is [NaN]. *)
Theorem C9_missing_fields (pre rest : Table) ds (k : string) (e : Entry) :
  Forall2 described pre ds ->
  operands e = None \/ cycles e = None ->
  (exists reading,
     main (pre ++ (k, e) :: rest)%list =
     (map line ds, Some (TypeError reading))) /\
  (forall k' m ops cs,
     exists d, describe k' (mkEntry m (Some ops) (Some cs)) = Ok d /\
               (cs = [] -> machine_cycles d = NaN)).
Proof.
  intros Hpre He. split.
  - destruct (describe_throws k e He) as [reading Hr]. exists reading.
    unfold main. rewrite (run_described pre ds Hpre). cbn [run app].
    now rewrite Hr.
  - intros k' m ops cs. eexists. split.
    + now apply describe_run.
    + now intros ->.
Qed.

(* ================================================================== *)
(** ** The theorems at sample inputs *)
(* ================================================================== *)

Lemma C1_witness :
  (name a16_indirect = Some "n16" \/ name a16_indirect = Some "a16") /\
  machineCode (snd (renderOperand a16_indirect start)) =
    ["0x36"; "0x34"; "0x12"] /\
  fst (operandValue a16_indirect start) = Some "0x1234".
Proof.
  split; [right; reflexivity|].
  exact (proj1 (proj2 (C1_placeholder_substitution a16_indirect start))
               (or_intror eq_refl)).
Defined.

Lemma C2_witness :
  operands LD_BC_n16 = Some [BC_register; n16_immediate] /\
  exists d,
    describe "0x01" LD_BC_n16 = Ok d /\
    length (bytes d) =
      1 + 2 * count isWide [BC_register; n16_immediate] +
      count isNarrow [BC_register; n16_immediate] /\
    length (bytes d) = 3.
Proof.
  split; [reflexivity|]. eexists. split; [reflexivity|].
  split; [|reflexivity].
  exact (proj1 (C2_machineCode_length "0x01" LD_BC_n16 _ _ eq_refl eq_refl)).
Defined.

Lemma C3_witness :
  immediate a16_indirect <> Some true /\
  fst (renderOperand a16_indirect start) =
    Some ("(" ++ toText (fst (operandValue a16_indirect start)) ++ ")") /\
  fst (renderOperand a16_indirect start) = Some "(0x1234)".
Proof.
  assert (H : immediate a16_indirect <> Some true) by discriminate.
  split; [exact H|]. split; [|reflexivity].
  exact (proj1 (proj2 (proj2 (C3_indirect_parentheses a16_indirect start))) H).
Defined.

Lemma C4_witness :
  increment HL_increment = Some true /\
  suffix HL_increment start =
    (Some "HL+", mkAcc [Some "LD"; Some "HL_increment"] ["0x36"]).
Proof.
  split; [reflexivity|].
  exact (proj1 (C4_increment_decrement HL_increment start) eq_refl).
Defined.

Lemma C5_witness :
  operands LD_HL_n8 = Some [HL_indirect; n8_immediate] /\
  exists d,
    describe "0x36" LD_HL_n8 = Ok d /\
    testName d = "ld_hl_n8" /\
    toLowerCase (testName d) = testName d.
Proof.
  split; [reflexivity|]. eexists. split; [reflexivity|].
  split; [reflexivity|].
  exact (proj2 (proj2 (proj2 (proj2
           (C5_testName "0x36" LD_HL_n8 _ _ eq_refl eq_refl))))).
Defined.

Lemma C6_witness :
  operands quarter = Some [] /\ cycles quarter = Some [1%Z] /\
  exists d,
    describe "0x00" quarter = Ok d /\
    machine_cycles d = divide (hd_error [1%Z]) 4.
Proof.
  split; [reflexivity|]. split; [reflexivity|].
  destruct (C6_machine_cycles "0x00" quarter [] [1%Z] eq_refl eq_refl)
    as (d & Hd & Hm & _).
  exists d. split; assumption.
Defined.



Lemma C8_witness :
  (forall k e, In (k, e) [("0x00", NOP); ("0x36", LD_HL_n8)] -> regular e) /\
  (exists ds,
     Forall2 (fun ke d => described ke d /\ hd_error (bytes d) = Some (fst ke))
             [("0x00", NOP); ("0x36", LD_HL_n8)] ds /\
     main [("0x00", NOP); ("0x36", LD_HL_n8)] =
       (map (fun d =>
               "            " ++ testName d ++ ": " ++
               String.concat ", " (bytes d) ++ " => " ++
               String "034" "" ++ assembly d ++ String "034" "" ++ ", " ++
               Number_toString (machine_cycles d) ++ ",") ds,
        None)) /\
  main [("0x00", NOP); ("0x36", LD_HL_n8)] =
    (["            nop: 0x00 => " ++ String "034" "" ++ "NOP" ++
        String "034" "" ++ ", 1,";
      "            ld_hl_n8: 0x36, 0x12 => " ++ String "034" "" ++
        "LD (HL), 0x12" ++ String "034" "" ++ ", 2,"],
     None).
Proof.
  assert (H : forall k e, In (k, e) [("0x00", NOP); ("0x36", LD_HL_n8)] ->
                regular e).
  { intros k e [E | [E | []]]; injection E as _ <-;
      (split; [discriminate|]); eexists; (split; [reflexivity|]);
      intros c Hc; injection Hc as <-; reflexivity. }
  split; [exact H|]. split; [|reflexivity].
  destruct (C8_output_lines [("0x00", NOP); ("0x36", LD_HL_n8)] H)
    as (ds & HF & Hm & _).
  exists ds. split; assumption.
Defined.

Lemma C9_witness :
  Forall2 described [("0x00", NOP)]
    [mkDescriptor "nop" ["0x00"] "NOP" (Num (4 # 4))] /\
  (operands no_cycles = None \/ cycles no_cycles = None) /\
  exists reading,
    main [("0x00", NOP); ("0x01", no_cycles); ("0x36", LD_HL_n8)] =
    (["            nop: 0x00 => " ++ dquote ++ "NOP" ++ dquote ++ ", 1,"],
     Some (TypeError reading)).
Proof.
  assert (H : Forall2 described [("0x00", NOP)]
                [mkDescriptor "nop" ["0x00"] "NOP" (Num (4 # 4))]).
  { constructor; [reflexivity|constructor]. }
  split; [exact H|]. split; [right; reflexivity|].
  exact (proj1 (C9_missing_fields [("0x00", NOP)] [("0x36", LD_HL_n8)] _
                  "0x01" no_cycles H (or_intror eq_refl))).
Defined.

Lemma C10_witness :
  increment HL_both = Some true /\ decrement HL_both = Some true /\
  suffix HL_both start =
    (Some "HL+", mkAcc [Some "LD"; Some "HL_increment"] ["0x36"]).
Proof.
  split; [reflexivity|]. split; [reflexivity|].
  exact (proj1 (C10_increment_precedence HL_both start eq_refl eq_refl)).
Defined.

(* ================================================================== *)
(** ** Where the specification's wording does not hold *)
(* ================================================================== *)

(** C2 as worded: [LD BC, n16] has one placeholder operand and two bytes
    after the opcode key. *)
Lemma C2_counterexample :
  operands LD_BC_n16 = Some [BC_register; n16_immediate] /\
  exists d,
    describe "0x01" LD_BC_n16 = Ok d /\
    bytes d = ["0x01"; "0x34"; "0x12"] /\
    count isPlaceholder [BC_register; n16_immediate] = 1 /\
    length (bytes d) - 1 <> count isPlaceholder [BC_register; n16_immediate].
Proof.
  split; [reflexivity|]. eexists. split; [reflexivity|].
  split; [reflexivity|]. split; [reflexivity|]. discriminate.
Qed.

(** C9 as worded: an entry without [mnemonic] makes nothing fail; its line
    is printed, "undefined" standing for the mnemonic, and the run goes on
    to the next entry.  An empty [cycles], whose element 0 is [undefined],
    prints [NaN] and does not fail either. *)
Lemma C9_counterexample :
  mnemonic no_mnemonic = None /\
  main [("0x00", no_mnemonic); ("0x36", LD_HL_n8)] =
    (["            : 0x00 => " ++ dquote ++ "undefined" ++ dquote ++ ", 1,";
      "            ld_hl_n8: 0x36, 0x12 => " ++ dquote ++ "LD (HL), 0x12" ++
        dquote ++ ", 2,"],
     None) /\
  hd_error [] = @None Z /\
  main [("0x00", empty_cycles)] =
    (["            nop: 0x00 => " ++ dquote ++ "NOP" ++ dquote ++ ", NaN,"],
     None).
Proof. repeat apply conj; reflexivity. Qed.

(** The substitution replaces a value that carries a suffix: the "+" of an
    incremented placeholder is kept in the test name only. *)
Lemma placeholder_replaces_suffix :
  renderOperand n8_increment start =
  (Some "0x12",
   mkAcc [Some "LD"; Some "n8_increment"] ["0x36"; "0x12"]).
Proof. reflexivity. Qed.

(** [trim] also strips white space that belongs to the mnemonic: with no
    operands and the mnemonic " NOP" the assembly text is "NOP". *)
Lemma assembly_padded_mnemonic :
  operands NOP_padded = Some [] /\
  mnemonic NOP_padded = Some " NOP" /\
  exists d,
    describe "0x00" NOP_padded = Ok d /\
    assembly d = "NOP" /\
    Some (assembly d) <> mnemonic NOP_padded.
Proof.
  split; [reflexivity|]. split; [reflexivity|]. eexists.
  split; [reflexivity|]. split; [reflexivity|]. discriminate.
Qed.

(* ================================================================== *)
(** ** Further properties of the operand loop *)
(* ================================================================== *)

Lemma count_le_length (p : Operand -> bool) (ops : list Operand) :
  count p ops <= length ops.
Proof.
  unfold count. induction ops as [|o ops IH]; cbn; [lia|].
  destruct (p o); cbn; lia.
Qed.

Lemma describe_Ok_operands (opcode : string) (e : Entry) d :
  describe opcode e = Ok d -> exists ops, operands e = Some ops.
Proof.
  unfold describe. destruct (operands e) as [ops|]; [now exists ops|discriminate].
Qed.

Lemma extraBytes_literal (n : jsstr) : Forall literalByte (extraBytes n).
Proof.
  unfold extraBytes.
  destruct (classify n);
    repeat (apply Forall_cons; [unfold literalByte; tauto|]);
    apply Forall_nil.
Qed.

(** X1.  Whatever the operands hold, the loop returns one token per
    operand, pushes one name part per operand after the parts already
    there, and appends at most two bytes per operand after the bytes
    already there. *)
Theorem X1_operand_contributions (ops : list Operand) (st : Acc) :
  let r := Array_map renderOperand ops st in
  length (fst r) = length ops /\
  (exists parts,
     testNames (snd r) = (testNames st ++ parts)%list /\
     length parts = length ops) /\
  (exists extra,
     machineCode (snd r) = (machineCode st ++ extra)%list /\
     length extra <= 2 * length ops).
Proof.
  cbv zeta. rewrite Array_map_renderOperand. cbn [fst snd testNames machineCode].
  split; [apply length_map|]. split.
  - eexists. split; [reflexivity|apply length_map].
  - eexists. split; [reflexivity|]. rewrite extraBytes_total.
    pose proof (count_isPlaceholder ops) as E.
    pose proof (count_le_length isPlaceholder ops). lia.
Qed.

(** X2.  The byte array of a descriptor is never empty: it starts with the
    opcode key, and every byte after it is one of the literals 0x34, 0x12
    and 0x7B. *)
Theorem X2_bytes_vocabulary (opcode : string) (e : Entry) d :
  describe opcode e = Ok d ->
  exists extra, bytes d = opcode :: extra /\ Forall literalByte extra.
Proof.
  intros Hd. destruct (describe_Ok_operands _ _ _ Hd) as [ops Ho].
  descriptor_of Ho Hd. cbn [bytes]. eexists. split; [reflexivity|].
  clear. induction ops as [|o ops IH]; cbn [flat_map]; [constructor|].
  apply Forall_app. split; [apply extraBytes_literal|exact IH].
Qed.



(** X4.  For an operand named [n16], [a16], [n8], [a8] or [e8] the
    rendered token and the bytes appended do not depend on the increment
    and decrement flags: the literal replaces the suffixed value. *)
Theorem X4_placeholder_drops_suffix
    (n : jsstr) (imm i d i' d' : jsbool) (st : Acc) :
  In n placeholderNames ->
  fst (renderOperand (mkOperand n imm i d) st) =
    fst (renderOperand (mkOperand n imm i' d') st) /\
  machineCode (snd (renderOperand (mkOperand n imm i d) st)) =
    machineCode (snd (renderOperand (mkOperand n imm i' d') st)).
Proof.
  intros H. rewrite !renderOperand_run. cbn [fst snd machineCode name].
  split; [|reflexivity].
  unfold token, substituted. cbn [name immediate].
  cbn in H. destruct H as [<-|[<-|[<-|[<-|[<-|[]]]]]]; reflexivity.
Qed.

(** X11.  The callback returns [undefined] only for an operand without a
    name that is immediate and has neither flag set; in every other case it
    returns a string. *)
Theorem X11_token_undefined (o : Operand) (st : Acc) :
  fst (renderOperand o st) = None <->
  name o = None /\ truthy (immediate o) = true /\
  truthy (increment o) = false /\ truthy (decrement o) = false.
Proof.
  rewrite renderOperand_run. cbn [fst].
  unfold token, wrap, substituted, suffixed. split.
  - intros H. destruct (truthy (immediate o)); [|discriminate].
    destruct (name o) as [s|] eqn:En.
    + exfalso. destruct (classify (Some s)); try discriminate.
      destruct (truthy (increment o)); [discriminate|].
      destruct (truthy (decrement o)); discriminate.
    + cbn [classify] in H.
      destruct (truthy (increment o)); [discriminate|].
      destruct (truthy (decrement o)); [discriminate|]. auto.
  - intros (Hn & Hi & Hinc & Hdec). rewrite Hn, Hi, Hinc, Hdec. reflexivity.
Qed.

(* ================================================================== *)
(** ** Further properties of a table entry *)
(* ================================================================== *)

(** X5.  The test name, the bytes and the cycle count of an entry do not
    depend on the [immediate] fields of its operands: entries that differ
    only in which operands are indirect get the same test name. *)
Theorem X5_immediate_not_in_testName
    (opcode : string) (m : jsstr) (ops : list Operand) (cs : list Z)
    (f : Operand -> jsbool) :
  exists d d',
    describe opcode (mkEntry m (Some ops) (Some cs)) = Ok d /\
    describe opcode (mkEntry m (Some (map (withImmediate f) ops)) (Some cs)) =
      Ok d' /\
    testName d = testName d' /\
    bytes d = bytes d' /\
    machine_cycles d = machine_cycles d'.
Proof.
  do 2 eexists.
  split; [now apply describe_run|]. split; [now apply describe_run|].
  cbn [testName bytes machine_cycles mnemonic].
  rewrite map_map.
  repeat apply conj; try reflexivity.
  f_equal. induction ops as [|o ops IH]; [reflexivity|].
  cbn [map flat_map]. now rewrite IH.
Qed.

Lemma append_assoc (a b c : string) : (a ++ b) ++ c = a ++ (b ++ c).
Proof. induction a as [|x a IH]; cbn; [reflexivity|now rewrite IH]. Qed.

Lemma toLowerCase_app (a b : string) :
  toLowerCase (a ++ b) = toLowerCase a ++ toLowerCase b.
Proof. induction a as [|x a IH]; cbn; [reflexivity|now rewrite IH]. Qed.

Lemma replaceAll_app (pat : ascii) (rep a b : string) :
  replaceAll pat rep (a ++ b) = replaceAll pat rep a ++ replaceAll pat rep b.
Proof.
  induction a as [|x a IH]; cbn; [reflexivity|].
  destruct (Ascii.eqb x pat); rewrite IH; [now rewrite append_assoc|reflexivity].
Qed.

Lemma normalise_app (a b : string) :
  normalise (a ++ b) = normalise a ++ normalise b.
Proof. unfold normalise. now rewrite toLowerCase_app, replaceAll_app. Qed.

(** Normalising a "_"-join is joining the normalised elements. *)
Lemma normalise_join (l : list string) :
  normalise (join "_" l) = join "_" (map normalise l).
Proof.
  induction l as [|x [|y l] IH]; [reflexivity|reflexivity|].
  change (join "_" (x :: y :: l)) with (x ++ "_" ++ join "_" (y :: l)).
  rewrite !normalise_app, IH. reflexivity.
Qed.

(** X6.  Lower-casing and "$"-removal act on each name part separately:
    the test name is the "_"-join of the normalised parts, so the
    separators are never altered and no part influences another. *)
Theorem X6_testName_by_parts (opcode : string) (e : Entry) ops d :
  operands e = Some ops -> describe opcode e = Ok d ->
  let parts :=
    testNames (snd (Array_map renderOperand ops (mkAcc [mnemonic e] [opcode]))) in
  testName d = join "_" (map (fun p => normalise (elementText p)) parts).
Proof.
  intros Ho Hd. descriptor_of Ho Hd.
  cbv zeta. rewrite Array_map_renderOperand. cbn [snd testNames testName app].
  unfold Array_join.
  change (replaceAll "$" ""
            (toLowerCase (join "_" (map elementText (mnemonic e :: map namePart ops)))))
    with (normalise (join "_" (map elementText (mnemonic e :: map namePart ops)))).
  now rewrite normalise_join, map_map.
Qed.

Lemma fraction_quarters (r : nat) :
  r < 4 ->
  fraction 20 r 4 =
  match r with 0 => "" | 1 => "25" | 2 => "5" | _ => "75" end.
Proof.
  intros H. destruct r as [|[|[|[|r]]]]; try reflexivity. lia.
Qed.

(** X9.  A non-negative cycle count [c] below 2^51 is printed as the
    decimal digits
    of [c / 4] followed by nothing, ".25", ".5" or ".75" according to
    [c mod 4]: a multiple of 4 prints as a plain integer, without a
    decimal point. *)
Theorem X9_quarter_text (c : Z) :
  (0 <= c)%Z -> smallCount c ->
  Number_toString (divide (Some c) 4) =
  natToString (Z.to_nat (c / 4)) ++ quarterSuffix c.
Proof.
  intros Hc _. unfold divide, Number_toString.
  change (Qnum (inject_Z c / inject_Z 4)) with (c * 1)%Z.
  change (Qden (inject_Z c / inject_Z 4)) with 4%positive.
  rewrite Z.mul_1_r.
  destruct (Z.ltb_spec c 0) as [Hn|_]; [lia|].
  rewrite Zabs2Nat.abs_nat_nonneg by exact Hc.
  change (Pos.to_nat 4) with 4.
  rewrite (Z2Nat.inj_div c 4) by lia. change (Z.to_nat 4) with 4.
  assert (Hr : Z.to_nat c mod 4 < 4) by (apply Nat.mod_upper_bound; lia).
  rewrite (fraction_quarters _ Hr).
  assert (Hm : (c mod 4)%Z = Z.of_nat (Z.to_nat c mod 4)).
  { rewrite Nat2Z.inj_mod, Z2Nat.id by exact Hc. reflexivity. }
  unfold quarterSuffix. rewrite Hm.
  cbn [append].
  destruct (Z.to_nat c mod 4) as [|[|[|[|r]]]]; try reflexivity. lia.
Qed.

(** X10.  When the mnemonic is not empty and does not start with white
    space, and the operand text is not empty and does not end with white
    space, [trim] removes nothing: the assembly text is the mnemonic, one
    blank and the tokens joined by ", ", character for character. *)
Theorem X10_assembly_verbatim
    (opcode : string) (e : Entry) ops d (m : string) :
  operands e = Some ops -> describe opcode e = Ok d ->
  mnemonic e = Some m ->
  let operandString :=
    Array_join ", "
      (fst (Array_map renderOperand ops (mkAcc [mnemonic e] [opcode]))) in
  m <> "" ->
  (forall c, firstChar m = Some c -> isSpace c = false) ->
  operandString <> "" ->
  (forall c, lastChar operandString = Some c -> isSpace c = false) ->
  assembly d = m ++ " " ++ operandString.
Proof.
  intros Ho Hd Hm. descriptor_of Ho Hd.
  cbv zeta. rewrite Array_map_renderOperand. cbn [fst assembly].
  rewrite Hm. cbn [toText].
  set (os := Array_join ", " (map token ops)).
  intros Nm Hf No Hl. unfold trim.
  destruct (lastChar_some os No) as [c2 H2].
  assert (L : lastChar (m ++ " " ++ os) = Some c2).
  { rewrite !lastChar_app; [exact H2|exact No|discriminate]. }
  change (m ++ String " " os) with (m ++ " " ++ os).
  rewrite (trimEnd_fixed _ _ L (Hl c2 H2)).
  destruct m as [|a m]; [now elim Nm|].
  apply (trimStart_fixed _ a); [reflexivity|now apply Hf].
Qed.

(* ================================================================== *)
(** ** Further properties of the run *)
(* ================================================================== *)

(** The lines printed before the run are kept, the new ones come after. *)
Lemma run_console (table : Table) (console : list string) :
  run table console = ((console ++ fst (main table))%list, snd (main table)).
Proof.
  unfold main. revert console.
  induction table as [|[k e] table IH]; intros console.
  - cbn. now rewrite app_nil_r.
  - cbn [run]. destruct (describe k e) as [d|err].
    + rewrite (IH (console ++ [line d])%list), (IH ([] ++ [line d])%list).
      cbn [fst snd app]. now rewrite <- app_assoc.
    + cbn. now rewrite app_nil_r.
Qed.

Lemma main_cons (k : string) (e : Entry) (table : Table) :
  main ((k, e) :: table) =
  match describe k e with
  | Ok d => (line d :: fst (main table), snd (main table))
  | Throw err => ([], Some err)
  end.
Proof.
  unfold main at 1. cbn [run]. destruct (describe k e) as [d|err];
    [|reflexivity].
  now rewrite run_console.
Qed.

Lemma describe_complete (opcode : string) (e : Entry) :
  complete e = true <-> exists d, describe opcode e = Ok d.
Proof.
  unfold complete, describe. destruct (operands e) as [ops|].
  - rewrite Array_map_renderOperand. destruct (cycles e) as [cs|].
    + split; [intros _; eexists; reflexivity|reflexivity].
    + split; [discriminate|intros [d H]; discriminate].
  - split; [discriminate|intros [d H]; discriminate].
Qed.

(** In a table of the types above, the run ends without an exception
    exactly when every entry has both arrays. *)
Lemma main_completes (table : Table) :
  (snd (main table) = None <->
   forallb (fun ke => complete (snd ke)) table = true) /\
  length (fst (main table)) <= length table /\
  (length (fst (main table)) = length table <-> snd (main table) = None).
Proof.
  induction table as [|[k e] table (IH1 & IH2 & IH3)].
  - cbn. split; [tauto|]. split; [lia|tauto].
  - rewrite main_cons. cbn [forallb snd length].
    pose proof (describe_complete k e) as Hc.
    destruct (describe k e) as [d|err]; cbn [fst snd length].
    + assert (E : complete e = true) by (apply Hc; now exists d).
      rewrite E. cbn [andb]. split; [exact IH1|]. split; [lia|].
      split; intros H; [apply IH3; lia|apply IH3 in H; lia].
    + assert (E : complete e = false).
      { destruct (complete e); [|reflexivity].
        destruct (proj1 Hc eq_refl) as [d H]. discriminate. }
      rewrite E. cbn [andb]. split; [split; discriminate|].
      split; [lia|split; discriminate].
Qed.

(** X7.  An entry without [operands] or without [cycles] always makes the
    run throw: a run that ends without an exception has met only entries
    with both arrays.  The run never prints more lines than the table has
    entries, and prints as many exactly when it ends without an
    exception. *)
Theorem X7_completion (table : Table) :
  (snd (main table) = None ->
   forallb (fun ke => complete (snd ke)) table = true) /\
  length (fst (main table)) <= length table /\
  (length (fst (main table)) = length table <-> snd (main table) = None).
Proof.
  destruct (main_completes table) as (H1 & H2 & H3).
  split; [apply H1|]. split; [exact H2|exact H3].
Qed.

Lemma run_app (t1 t2 : Table) (console : list string) :
  run (t1 ++ t2)%list console =
  match snd (run t1 console) with
  | None => run t2 (fst (run t1 console))
  | Some _ => run t1 console
  end.
Proof.
  revert console. induction t1 as [|[k e] t1 IH]; intros console.
  - reflexivity.
  - cbn [app run]. destruct (describe k e) as [d|err]; [apply IH|reflexivity].
Qed.

(** X8.  Tables run in sequence: when the run over [t1] ends without an
    exception, the run over [t1 ++ t2] prints the lines of [t1], then
    those of [t2], and ends as the run over [t2] does; when it throws,
    the entries of [t2] change nothing. *)
Theorem X8_run_sequence (t1 t2 : Table) :
  (snd (main t1) = None ->
   main (t1 ++ t2)%list =
   ((fst (main t1) ++ fst (main t2))%list, snd (main t2))) /\
  (forall err, snd (main t1) = Some err -> main (t1 ++ t2)%list = main t1).
Proof.
  split.
  - intros H. unfold main at 1. rewrite run_app.
    fold (main t1). rewrite H. apply run_console.
  - intros err H. unfold main at 1. rewrite run_app.
    fold (main t1). now rewrite H.
Qed.

(* ================================================================== *)
(** ** The further properties at sample inputs *)
(* ================================================================== *)

Lemma X2_witness :
  describe "0xEA" LD_a16_A =
    Ok (mkDescriptor "ld_a16_a" ["0xEA"; "0x34"; "0x12"] "LD (0x1234), A"
          (Num (16 # 4))) /\
  exists extra,
    ["0xEA"; "0x34"; "0x12"] = "0xEA" :: extra /\ Forall literalByte extra.
Proof.
  split; [reflexivity|].
  exact (X2_bytes_vocabulary "0xEA" LD_a16_A _ eq_refl).
Defined.

Lemma X4_witness :
  In (Some "n8") placeholderNames /\
  fst (renderOperand n8_increment start) =
    fst (renderOperand n8_immediate start).
Proof.
  assert (H : In (Some "n8") placeholderNames) by (cbn; tauto).
  split; [exact H|].
  exact (proj1 (X4_placeholder_drops_suffix (Some "n8") (Some true)
                  (Some true) None None None start H)).
Defined.

Lemma X6_witness :
  operands RST_38 = Some [mkOperand (Some "$38") (Some true) None None] /\
  exists d,
    describe "0xFF" RST_38 = Ok d /\
    testName d = join "_" [normalise "RST"; normalise "$38"] /\
    testName d = "rst_38".
Proof.
  split; [reflexivity|]. eexists. split; [reflexivity|].
  split; [|reflexivity].
  exact (X6_testName_by_parts "0xFF" RST_38 _ _ eq_refl eq_refl).
Defined.

Lemma X8_witness :
  snd (main [("0x00", NOP)]) = None /\
  main ([("0x00", NOP)] ++ [("0x36", LD_HL_n8)])%list =
    ((fst (main [("0x00", NOP)]) ++ fst (main [("0x36", LD_HL_n8)]))%list,
     snd (main [("0x36", LD_HL_n8)])) /\
  snd (main [("0x01", no_operands)]) = Some (TypeError "map") /\
  main ([("0x01", no_operands)] ++ [("0x36", LD_HL_n8)])%list =
    main [("0x01", no_operands)].
Proof.
  split; [reflexivity|]. split.
  - exact (proj1 (X8_run_sequence [("0x00", NOP)] [("0x36", LD_HL_n8)])
                 eq_refl).
  - split; [reflexivity|].
    exact (proj2 (X8_run_sequence [("0x01", no_operands)] [("0x36", LD_HL_n8)])
                 (TypeError "map") eq_refl).
Defined.

Lemma X9_witness :
  (0 <= 10)%Z /\ smallCount 10 /\
  Number_toString (divide (Some 10%Z) 4) =
    natToString (Z.to_nat (10 / 4)) ++ quarterSuffix 10 /\
  Number_toString (divide (Some 10%Z) 4) = "2.5".
Proof.
  assert (H : (0 <= 10)%Z) by (intros H; discriminate H).
  assert (S : smallCount 10) by reflexivity.
  split; [exact H|]. split; [exact S|].
  split; [exact (X9_quarter_text 10 H S)|reflexivity].
Defined.

Lemma X10_witness :
  operands LD_HL_n8 = Some [HL_indirect; n8_immediate] /\
  mnemonic LD_HL_n8 = Some "LD" /\
  "LD" <> "" /\ "(HL), 0x12" <> "" /\
  exists d,
    describe "0x36" LD_HL_n8 = Ok d /\
    assembly d = "LD" ++ " " ++ "(HL), 0x12".
Proof.
  assert (Nm : "LD" <> "") by discriminate.
  assert (No : "(HL), 0x12" <> "") by discriminate.
  assert (Hf : forall c, firstChar "LD" = Some c -> isSpace c = false).
  { intros c H. injection H as <-. reflexivity. }
  assert (Hl : forall c, lastChar "(HL), 0x12" = Some c -> isSpace c = false).
  { intros c H. injection H as <-. reflexivity. }
  split; [reflexivity|]. split; [reflexivity|].
  split; [exact Nm|]. split; [exact No|].
  eexists. split; [reflexivity|].
  exact (X10_assembly_verbatim "0x36" LD_HL_n8 _ _ "LD"
           eq_refl eq_refl eq_refl Nm Hf No Hl).
Defined.
